(** * Portfolio API: a shallow embedding of [main.py]

    The service exposes six routes: two banners, two static catalogs
    ([PROJECTS], [EXPERIENCE]), a contact form whose persistence is
    best-effort, and a diagnostic report on the optional [database] module.

    Python text is a sequence of code points, exceptions are values, and a
    handler is a function from the process state to an outcome and a new
    state, so that [try]/[except] and in-place updates of the [response]
    dictionary keep the meaning they have in the source. *)

From Stdlib Require Import List NArith Ascii String Bool Arith Lia.
Import ListNotations.

Set Implicit Arguments.

(* ================================================================== *)
(** * Python values *)
(* ================================================================== *)

(** A Python [str] is a sequence of Unicode code points: [len] counts code
    points and [s[:n]] keeps the first [n] of them. *)
Definition codepoint := N.
Definition str := list codepoint.

(** An ASCII literal of the source, one code point per character. *)
Definition lit (s : string) : str :=
  map N_of_ascii (list_ascii_of_string s).

Definition len (s : str) : nat := List.length s.

(** [l[:n]] *)
Definition slice_to {A : Type} (n : nat) (l : list A) : list A := firstn n l.

Definition str_eqb (a b : str) : bool :=
  if list_eq_dec N.eq_dec a b then true else false.

(** The non-ASCII characters of the source. *)
Definition CHECK_MARK : codepoint := 0x2705%N.     (* U+2705 *)
Definition CROSS_MARK : codepoint := 0x274C%N.     (* U+274C *)
Definition WARNING_SIGN : codepoint := 0x26A0%N.   (* U+26A0 *)
Definition VARIATION_16 : codepoint := 0xFE0F%N.   (* U+FE0F *)
Definition EM_DASH : codepoint := 0x2014%N.        (* U+2014 *)

(** JSON-visible values that are either [None] or a string. *)
Inductive pyval : Type :=
| PyNone
| PyStr (s : str).

(** Truth value of [os.getenv(k)]: [None] and the empty string are false. *)
Definition truthy (v : option str) : bool :=
  match v with
  | None => false
  | Some [] => false
  | Some (_ :: _) => true
  end.

(* ================================================================== *)
(** * Exceptions and handlers *)
(* ================================================================== *)

(** An instance of Python's [Exception] class, seen through the two
    observations the source makes of it: [isinstance(e, ImportError)], which
    selects the [except ImportError] clause, and [str(e)]. Control signals
    that are not [Exception]s (KeyboardInterrupt, SystemExit) are outside the
    model, so [except Exception] matches every value of this type. *)
Record exc : Type := Exc {
  is_ImportError : bool;
  exc_str : str
}.

Inductive result (A : Type) : Type :=
| Return (a : A)
| Raise (e : exc).
Arguments Return {A} a.
Arguments Raise {A} e.

(** Computations over a state [S] that may raise. The state reached before a
    [raise] is kept: an assignment made inside a [try] block stays made when
    a later statement of the block raises. *)
Section Exec.
Variable S : Type.

Definition M (A : Type) : Type := S -> result A * S.

Definition ret {A : Type} (a : A) : M A := fun s => (Return a, s).

Definition bind {A B : Type} (m : M A) (k : A -> M B) : M B :=
  fun s =>
    match m s with
    | (Return a, s') => k a s'
    | (Raise e, s') => (Raise e, s')
    end.

(** The outcome of an external call, which leaves [S] alone. *)
Definition lift {A : Type} (r : result A) : M A := fun s => (r, s).

Definition modify (f : S -> S) : M unit := fun s => (Return tt, f s).

Definition gets {A : Type} (f : S -> A) : M A := fun s => (Return (f s), s).

(** [try: body  except Exception as e: handler e] *)
Definition try_except {A : Type} (body : M A) (handler : exc -> M A) : M A :=
  fun s =>
    match body s with
    | (Return a, s') => (Return a, s')
    | (Raise e, s') => handler e s'
    end.
End Exec.

Arguments ret {S A} a.
Arguments bind {S A B} m k.
Arguments lift {S A} r.
Arguments modify {S} f.
Arguments gets {S A} f.
Arguments try_except {S A} body handler.

Declare Scope py_scope.
Delimit Scope py_scope with py.
Notation "x <- m ;; k" := (bind m (fun x => k))
  (at level 61, m at next level, right associativity) : py_scope.
Notation "m ;; k" := (bind m (fun _ => k))
  (at level 61, right associativity) : py_scope.
Local Open Scope py_scope.

(* ================================================================== *)
(** * Data model *)
(* ================================================================== *)

Module ContactMessage.
(** A validated contact message (lines 18-21). *)
Record t : Type := Make {
  name : str;
  email : str;
  message : str
}.
End ContactMessage.

Module Project.
Record t : Type := Make {
  title : str;
  description : str;
  stack : list str;
  github : option str;
  api_docs : option str
}.
End Project.

Module ExperienceItem.
Record t : Type := Make {
  title : str;
  organization : str;
  period : str;
  description : str;
  tags : list str
}.
End ExperienceItem.

Definition PROJECTS : list Project.t :=
  [ Project.Make
      (lit "Scalable Task Queue with Distributed Workers")
      (lit "Built a Celery + RabbitMQ based task processing system with autoscaling workers, metrics, and retries.")
      [lit "Python"; lit "FastAPI"; lit "Celery"; lit "RabbitMQ"; lit "Docker"; lit "Prometheus"]
      (Some (lit "https://github.com/example/scalable-task-queue"))
      None;
    Project.Make
      (lit "API Gateway & Auth Service")
      (lit "Kong gateway with JWT auth service, rate limiting, and observability integrated.")
      [lit "Kong"; lit "PostgreSQL"; lit "Redis"; lit "Go"; lit "Docker"; lit "Grafana"]
      (Some (lit "https://github.com/example/api-gateway-auth"))
      (Some (lit "https://api.example.com/docs"));
    Project.Make
      (lit "Event-Driven Microservices")
      (lit "Microservices communicating via Kafka with schema registry and idempotent consumers.")
      [lit "Node.js"; lit "TypeScript"; lit "Kafka"; lit "PostgreSQL"; lit "Docker"; lit "Kubernetes"]
      (Some (lit "https://github.com/example/event-driven-services"))
      None ].

Definition EXPERIENCE : list ExperienceItem.t :=
  [ ExperienceItem.Make
      (lit "Open-source Contributor")
      (lit "FastAPI Ecosystem")
      (lit "2022 " ++ EM_DASH :: lit " Present")
      (lit "Contributed bug fixes and performance tweaks, improved docs, and triaged issues.")
      [lit "FastAPI"; lit "Open Source"; lit "Performance"];
    ExperienceItem.Make
      (lit "Freelance Backend Developer")
      (lit "Remote")
      (lit "2021 " ++ EM_DASH :: lit " 2024")
      (lit "Delivered APIs, database schemas, and deployment pipelines for startups and solo founders.")
      [lit "APIs"; lit "Databases"; lit "CI/CD"];
    ExperienceItem.Make
      (lit "Personal Projects")
      (lit "Various")
      (lit "Ongoing")
      (lit "R&D on distributed systems, caching strategies, and resilience patterns.")
      [lit "Kafka"; lit "Caching"; lit "Resilience"] ].

(* ================================================================== *)
(** * Process state and surroundings *)
(* ================================================================== *)

(** What a request can read or change: the two module-level lists, and the
    record of the calls made to the collaborator's [create_document], the
    only writing operation the service ever invokes. *)
Record state : Type := State {
  g_PROJECTS : list Project.t;
  g_EXPERIENCE : list ExperienceItem.t;
  create_document_calls : list (str * ContactMessage.t)
}.

(** The state of a fresh instance. *)
Definition fresh : state := State PROJECTS EXPERIENCE [].

(** The handle [db] of the optional [database] module: [db_name] is
    [db.name] when [hasattr(db, "name")], and [list_collection_names] is the
    outcome of the call [db.list_collection_names()]. *)
Record Database : Type := {
  db_name : option str;
  list_collection_names : result (list str)
}.

(** The surroundings of one request: the outcome of the two imports from the
    [database] module (a raised exception when the module or the name is
    missing or the module fails while loading) and the process environment. *)
Record world : Type := World {
  import_create_document : result (str -> ContactMessage.t -> result pyval);
  import_db : result (option Database);
  getenv : str -> option str
}.

(* ================================================================== *)
(** * Handlers *)
(* ================================================================== *)

(** [read_root] and [hello] return [{"message": ...}]. *)
Definition read_root : M state str := ret (lit "Portfolio API running").

Definition hello : M state str := ret (lit "Hello from the backend API!").

Definition get_projects : M state (list Project.t) := gets g_PROJECTS.

Definition get_experience : M state (list ExperienceItem.t) := gets g_EXPERIENCE.

(** [{"status": ..., "stored_id": ...}] *)
Record ContactResponse : Type := {
  status : str;
  stored_id : pyval
}.

(** The call [create_document(collection, payload)], recorded in the state. *)
Definition call_create_document
    (create_document : str -> ContactMessage.t -> result pyval)
    (collection : str) (payload : ContactMessage.t) : M state pyval :=
  fun st =>
    (create_document collection payload,
     State (g_PROJECTS st) (g_EXPERIENCE st)
           (create_document_calls st ++ [(collection, payload)])).

(** Lines 110-120. The local [stored_id] is [None] unless the [try] block
    runs to its end, in which case it is what [create_document] returned. *)
Definition submit_contact (w : world) (payload : ContactMessage.t)
  : M state ContactResponse :=
  stored_id <-
    try_except
      (create_document <- lift (import_create_document w) ;;
       call_create_document create_document (lit "message") payload)
      (fun _ => ret PyNone) ;;
  ret {| status := lit "ok"; stored_id := stored_id |}.

(** The dictionary [response] of [test_database]; its keys are fixed. *)
Record Response : Type := {
  backend : str;
  database : str;
  database_url : option str;
  database_name : option str;
  connection_status : str;
  collections : list str
}.

(** [test_database] runs over the process state and its local [response]. *)
Definition frame : Type := (state * Response)%type.

Definition set_database (v : str) : M frame unit :=
  modify (fun '(st, r) =>
    (st, Build_Response (backend r) v (database_url r) (database_name r)
                        (connection_status r) (collections r))).

Definition set_database_url (v : option str) : M frame unit :=
  modify (fun '(st, r) =>
    (st, Build_Response (backend r) (database r) v (database_name r)
                        (connection_status r) (collections r))).

Definition set_database_name (v : option str) : M frame unit :=
  modify (fun '(st, r) =>
    (st, Build_Response (backend r) (database r) (database_url r) v
                        (connection_status r) (collections r))).

Definition set_connection_status (v : str) : M frame unit :=
  modify (fun '(st, r) =>
    (st, Build_Response (backend r) (database r) (database_url r)
                        (database_name r) v (collections r))).

Definition set_collections (v : list str) : M frame unit :=
  modify (fun '(st, r) =>
    (st, Build_Response (backend r) (database r) (database_url r)
                        (database_name r) (connection_status r) v)).

(** Lines 126-133. *)
Definition initial_response : Response := {|
  backend := CHECK_MARK :: lit " Running";
  database := CROSS_MARK :: lit " Not Available";
  database_url := None;
  database_name := None;
  connection_status := lit "Not Connected";
  collections := []
|}.

Definition MODULE_NOT_FOUND : str :=
  CROSS_MARK :: lit " Database module not found (run enable-database first)".

Definition NOT_INITIALIZED : str :=
  WARNING_SIGN :: VARIATION_16 :: lit "  Available but not initialized".

Definition CONNECTED_AND_WORKING : str :=
  CHECK_MARK :: lit " Connected & Working".

Definition CONNECTED_BUT_ERROR : str :=
  WARNING_SIGN :: VARIATION_16 :: lit "  Connected but Error: ".

Definition ERROR_PREFIX : str := CROSS_MARK :: lit " Error: ".

Definition SET : str := CHECK_MARK :: lit " Set".

Definition NOT_SET : str := CROSS_MARK :: lit " Not Set".

(** Lines 135-156: the statements between the creation of [response] and
    [return response]. *)
Definition test_database_body (w : world) : M frame unit :=
  try_except
    (db <- lift (import_db w) ;;
     match db with
     | Some db =>
         set_database (CHECK_MARK :: lit " Available") ;;
         set_database_url (Some (CHECK_MARK :: lit " Configured")) ;;
         set_database_name
           (Some (match db_name db with
                  | Some n => n
                  | None => CHECK_MARK :: lit " Connected"
                  end)) ;;
         set_connection_status (lit "Connected") ;;
         try_except
           (collections <- lift (list_collection_names db) ;;
            set_collections (slice_to 10 collections) ;;
            set_database CONNECTED_AND_WORKING)
           (fun e =>
              set_database (CONNECTED_BUT_ERROR ++ slice_to 50 (exc_str e)))
     | None => set_database NOT_INITIALIZED
     end)
    (fun e =>
       if is_ImportError e
       then set_database MODULE_NOT_FOUND
       else set_database (ERROR_PREFIX ++ slice_to 50 (exc_str e))) ;;
  set_database_url
    (Some (if truthy (getenv w (lit "DATABASE_URL")) then SET else NOT_SET)) ;;
  set_database_name
    (Some (if truthy (getenv w (lit "DATABASE_NAME")) then SET else NOT_SET)).

(** Lines 123-157. *)
Definition test_database (w : world) : M state Response :=
  fun st =>
    match test_database_body w (st, initial_response) with
    | (Return _, (st', response)) => (Return response, st')
    | (Raise e, (st', _)) => (Raise e, st')
    end.

(* ================================================================== *)
(** * Request validation and routing *)
(* ================================================================== *)

(** The JSON body of [POST /api/contact] before validation: each of the three
    fields is absent or holds a string. *)
Record Candidate : Type := {
  c_name : option str;
  c_email : option str;
  c_message : option str
}.

Inductive field : Type := f_name | f_email | f_message.

Inductive error_kind : Type :=
| missing
| string_too_short
| string_too_long
| value_error.

Definition field_error : Type := (field * error_kind)%type.

Inductive request : Type :=
| GET_root
| GET_hello
| GET_projects
| GET_experience
| POST_contact (body : Candidate)
| GET_test.

Inductive http_response : Type :=
| OK_message (message : str)
| OK_projects (body : list Project.t)
| OK_experience (body : list ExperienceItem.t)
| OK_contact (body : ContactResponse)
| OK_test (body : Response)
| Unprocessable (detail : list field_error)
| Internal_Server_Error (e : exc).

Section Service.

(** The syntax check of [EmailStr], which lives in a library: [None] when
    the address is rejected, the accepted address otherwise. *)
Variable validate_email : str -> option str.

(** Modelled from the spec: the check pydantic derives from
    [Field(..., min_length, max_length)], which is not part of [main.py].
    The field is required and its length must lie between the bounds. *)
Definition check_length (min_length max_length : nat) (v : option str)
  : str + error_kind :=
  match v with
  | None => inr missing
  | Some s =>
      if len s <? min_length then inr string_too_short
      else if max_length <? len s then inr string_too_long
      else inl s
  end.

(** Modelled from the spec: the check pydantic derives from [EmailStr],
    which is not part of [main.py]. The field is required and must pass
    the syntax check. *)
Definition check_email (v : option str) : str + error_kind :=
  match v with
  | None => inr missing
  | Some s =>
      match validate_email s with
      | Some s' => inl s'
      | None => inr value_error
      end
  end.

Definition errors_of (f : field) (r : str + error_kind) : list field_error :=
  match r with
  | inl _ => []
  | inr k => [(f, k)]
  end.

(** Modelled from the spec: the validation of a [ContactMessage] by
    pydantic, which is not part of [main.py]. The bounds are those of lines
    19-21; every field is checked, and the errors of all failing fields are
    reported together, in declaration order. *)
Definition validate (c : Candidate) : ContactMessage.t + list field_error :=
  match check_length 2 100 (c_name c),
        check_email (c_email c),
        check_length 10 2000 (c_message c) with
  | inl n, inl e, inl m => inl (ContactMessage.Make n e m)
  | rn, re, rm =>
      inr (errors_of f_name rn ++ errors_of f_email re ++ errors_of f_message rm)
  end.

(** The reply to a handler's outcome: its value with status 200, or status
    500 when an exception escapes from it. *)
Definition respond {A : Type} (ok : A -> http_response) (handler : M state A)
  : state -> http_response * state :=
  fun st =>
    match handler st with
    | (Return a, st') => (ok a, st')
    | (Raise e, st') => (Internal_Server_Error e, st')
    end.

(** Modelled from the spec: the routing of FastAPI, which is not part of
    [main.py]. A body that fails validation is answered with the error
    list and the handler is not called. *)
Definition serve (w : world) (req : request) : state -> http_response * state :=
  match req with
  | GET_root => respond OK_message read_root
  | GET_hello => respond OK_message hello
  | GET_projects => respond OK_projects get_projects
  | GET_experience => respond OK_experience get_experience
  | POST_contact body =>
      match validate body with
      | inl payload => respond OK_contact (submit_contact w payload)
      | inr detail => fun st => (Unprocessable detail, st)
      end
  | GET_test => respond OK_test (test_database w)
  end.

(** The state after a sequence of requests, each in its own surroundings. *)
Fixpoint run (trace : list (world * request)) (st : state) : state :=
  match trace with
  | [] => st
  | (w, req) :: rest => run rest (snd (serve w req st))
  end.

(** The field constraints as the data model states them. *)
Definition in_range (lo hi : nat) (s : str) : bool :=
  (lo <=? len s) && (len s <=? hi).

Definition field_ok (c : Candidate) (f : field) : bool :=
  match f with
  | f_name =>
      match c_name c with Some s => in_range 2 100 s | None => false end
  | f_email =>
      match c_email c with
      | Some s => match validate_email s with Some _ => true | None => false end
      | None => false
      end
  | f_message =>
      match c_message c with Some s => in_range 10 2000 s | None => false end
  end.

Definition violates (c : Candidate) : bool :=
  negb (field_ok c f_name && field_ok c f_email && field_ok c f_message).

End Service.

(** [n] successive calls of a handler, with the outcome of each. *)
Fixpoint call_times {A : Type} (handler : M state A) (n : nat) (st : state)
  : list (result A) * state :=
  match n with
  | O => ([], st)
  | S n' =>
      let (r, st') := handler st in
      let (rs, st'') := call_times handler n' st' in
      (r :: rs, st'')
  end.

(** The snapshot's flags if they followed the mere presence of the two
    environment variables. *)
Definition present (v : option str) : bool :=
  match v with
  | Some _ => true
  | None => false
  end.

Definition flags_follow_presence (w : world) (st : state) : Prop :=
  exists r,
    test_database w st = (Return r, st) /\
    database_url r =
      Some (if present (getenv w (lit "DATABASE_URL")) then SET else NOT_SET) /\
    database_name r =
      Some (if present (getenv w (lit "DATABASE_NAME")) then SET else NOT_SET).

(* ================================================================== *)
(** * Sample surroundings *)
(* ================================================================== *)

(** An address check that only asks for an [@]. *)
Definition has_at (s : str) : option str :=
  if existsb (N.eqb 64) s then Some s else None.

Definition ModuleNotFoundError : exc :=
  Exc true (lit "No module named 'database'").

Definition ServerSelectionTimeoutError : exc :=
  Exc false (lit "localhost:27017: [Errno 111] Connection refused, Timeout: 30s, Topology Description: unknown").

(** No [database] module and no environment variable. *)
Definition no_store : world := {|
  import_create_document := Raise ModuleNotFoundError;
  import_db := Raise ModuleNotFoundError;
  getenv := fun _ => None
|}.

(** The [database] module fails while it loads. *)
Definition broken_module : world := {|
  import_create_document := Raise ServerSelectionTimeoutError;
  import_db := Raise ServerSelectionTimeoutError;
  getenv := fun _ => None
|}.

(** A store that is reachable by name only: every call to it fails. *)
Definition unreachable_db : Database := {|
  db_name := Some (lit "portfolio");
  list_collection_names := Raise ServerSelectionTimeoutError
|}.

Definition unreachable_store : world := {|
  import_create_document := Return (fun _ _ => Raise ServerSelectionTimeoutError);
  import_db := Return (Some unreachable_db);
  getenv := fun _ => Some (lit "x")
|}.

(** [DATABASE_URL] is exported with an empty value. *)
Definition empty_url : world := {|
  import_create_document := Raise ModuleNotFoundError;
  import_db := Raise ModuleNotFoundError;
  getenv := fun k => if str_eqb k (lit "DATABASE_URL") then Some [] else None
|}.

Definition jo : Candidate := {|
  c_name := Some (lit "Jo");
  c_email := Some (lit "jo@x.com");
  c_message := Some (lit "Hello there, this is long enough.")
|}.

Definition bad_candidate : Candidate := {|
  c_name := Some (lit "A");
  c_email := Some (lit "not-an-email");
  c_message := Some (lit "short")
|}.

(** A store that answers: twelve collections and an identifier for every
    document. *)
Definition working_db : Database := {|
  db_name := Some (lit "portfolio");
  list_collection_names :=
    Return [lit "message"; lit "c02"; lit "c03"; lit "c04"; lit "c05"; lit "c06";
            lit "c07"; lit "c08"; lit "c09"; lit "c10"; lit "c11"; lit "c12"]
|}.

Definition working_store : world := {|
  import_create_document := Return (fun _ _ => Return (PyStr (lit "65f0c0ffee")));
  import_db := Return (Some working_db);
  getenv := fun _ => Some (lit "x")
|}.

(** An exception whose message is shorter than the fifty characters kept. *)
Definition short_error : exc := Exc false (lit "boom").

Definition failing_listing : world := {|
  import_create_document := Raise short_error;
  import_db := Return (Some {| db_name := None;
                               list_collection_names := Raise short_error |});
  getenv := fun _ => None
|}.

(* ================================================================== *)
(** * Traffic *)
(* ================================================================== *)

(** The requests that reach [create_document]: a body that passes validation,
    posted while [from database import create_document] succeeds. *)
Definition forwards (validate_email : str -> option str) (w : world)
    (req : request) : bool :=
  match req with
  | POST_contact body =>
      match validate validate_email body, import_create_document w with
      | inl _, Return _ => true
      | _, _ => false
      end
  | _ => false
  end.

Definition forwarded (validate_email : str -> option str)
    (trace : list (world * request)) : nat :=
  List.length (filter (fun wr => forwards validate_email (fst wr) (snd wr)) trace).

(** A recorded call whose collection is ["message"] and whose record meets
    the constraints of [ContactMessage]. *)
Definition valid_call (validate_email : str -> option str)
    (call : str * ContactMessage.t) : Prop :=
  fst call = lit "message" /\
  2 <= len (ContactMessage.name (snd call)) <= 100 /\
  10 <= len (ContactMessage.message (snd call)) <= 2000 /\
  exists address, validate_email address = Some (ContactMessage.email (snd call)).

(* ================================================================== *)
(** * Shared facts *)
(* ================================================================== *)

Lemma slice_to_length (A : Type) (n : nat) (l : list A) :
  List.length (slice_to n l) <= n.
Proof. unfold slice_to. apply firstn_le_length. Qed.

Lemma truthy_spec (v : option str) :
  truthy v = true <-> exists s, v = Some s /\ s <> [].
Proof.
  destruct v as [[|c s]|]; simpl; split.
  - discriminate.
  - intros (s & Hs & Hne). inversion Hs; subst. now elim Hne.
  - intros _. exists (c :: s). split; [reflexivity | discriminate].
  - reflexivity.
  - discriminate.
  - intros (s & Hs & _). discriminate.
Qed.

(** Unfolds one handler of the diagnostic route down to its outcome. *)
Ltac probe w :=
  unfold test_database, test_database_body, bind, try_except, lift;
  destruct (import_db w) as [[db|]|e];
  [ destruct (list_collection_names db) as [cs|e] | | destruct (is_ImportError e) eqn:?].

(** The diagnostic handler returns, whatever its surroundings are, and hands
    the process state back as it received it. *)
Lemma test_database_returns (w : world) (st : state) :
  exists r, test_database w st = (Return r, st).
Proof. probe w; eexists; reflexivity. Qed.

(** The contact handler returns, whatever its surroundings are; it leaves the
    two catalogs alone. *)
Lemma submit_contact_returns (w : world) (payload : ContactMessage.t) (st : state) :
  exists id st',
    submit_contact w payload st = (Return {| status := lit "ok"; stored_id := id |}, st') /\
    g_PROJECTS st' = g_PROJECTS st /\
    g_EXPERIENCE st' = g_EXPERIENCE st.
Proof.
  unfold submit_contact, bind, try_except, lift, call_create_document, ret.
  destruct (import_create_document w) as [create_document|e].
  - destruct (create_document (lit "message") payload) as [v|e];
      do 2 eexists; (split; [reflexivity | split; reflexivity]).
  - do 2 eexists. split; [reflexivity | split; reflexivity].
Qed.

Section ServiceFacts.
Variable validate_email : str -> option str.

Lemma in_range_spec (lo hi : nat) (s : str) :
  in_range lo hi s = true <-> lo <= len s <= hi.
Proof.
  unfold in_range. rewrite andb_true_iff, !Nat.leb_le. reflexivity.
Qed.

Lemma check_length_ok (lo hi : nat) (s : str) :
  in_range lo hi s = true -> check_length lo hi (Some s) = inl s.
Proof.
  intros H. apply in_range_spec in H. unfold check_length.
  destruct (Nat.ltb_spec (len s) lo); [lia|].
  destruct (Nat.ltb_spec hi (len s)); [lia|]. reflexivity.
Qed.

Lemma check_length_bad (lo hi : nat) (v : option str) :
  match v with Some s => in_range lo hi s | None => false end = false ->
  exists k, check_length lo hi v = inr k.
Proof.
  destruct v as [s|]; [|intros _; eexists; reflexivity].
  intros H. unfold check_length.
  destruct (Nat.ltb_spec (len s) lo); [eexists; reflexivity|].
  destruct (Nat.ltb_spec hi (len s)); [eexists; reflexivity|].
  assert (in_range lo hi s = true) by (apply in_range_spec; lia).
  congruence.
Qed.

(** A field passes its check exactly when it meets its constraint. *)
Lemma check_name_ok (c : Candidate) :
  field_ok validate_email c f_name = true <->
  exists s, check_length 2 100 (c_name c) = inl s.
Proof.
  simpl. destruct (c_name c) as [s|].
  - destruct (in_range 2 100 s) eqn:E.
    + split; [intros _; exists s; now apply check_length_ok | reflexivity].
    + split; [discriminate|]. intros (s' & Hs').
      destruct (check_length_bad 2 100 (Some s) E) as (k & Hk). congruence.
  - split; [discriminate | intros (s' & Hs'); discriminate].
Qed.

Lemma check_message_ok (c : Candidate) :
  field_ok validate_email c f_message = true <->
  exists s, check_length 10 2000 (c_message c) = inl s.
Proof.
  simpl. destruct (c_message c) as [s|].
  - destruct (in_range 10 2000 s) eqn:E.
    + split; [intros _; exists s; now apply check_length_ok | reflexivity].
    + split; [discriminate|]. intros (s' & Hs').
      destruct (check_length_bad 10 2000 (Some s) E) as (k & Hk). congruence.
  - split; [discriminate | intros (s' & Hs'); discriminate].
Qed.

Lemma check_email_ok (c : Candidate) :
  field_ok validate_email c f_email = true <->
  exists s, check_email validate_email (c_email c) = inl s.
Proof.
  simpl. unfold check_email. destruct (c_email c) as [s|].
  - destruct (validate_email s) as [s'|].
    + split; [intros _; now exists s' | reflexivity].
    + split; [discriminate | intros (s' & Hs'); discriminate].
  - split; [discriminate | intros (s' & Hs'); discriminate].
Qed.

(** The fields named in the error list are the fields that fail. *)
Lemma validate_detail (c : Candidate) (detail : list field_error) :
  validate validate_email c = inr detail ->
  detail <> [] /\
  (forall f, In f (map fst detail) <-> field_ok validate_email c f = false).
Proof.
  unfold validate.
  pose proof (check_name_ok c) as Hn.
  pose proof (check_email_ok c) as He.
  pose proof (check_message_ok c) as Hm.
  destruct (check_length 2 100 (c_name c)) as [n|kn];
    destruct (check_email validate_email (c_email c)) as [e|ke];
    destruct (check_length 10 2000 (c_message c)) as [m|km];
    intros H; inversion H; subst; clear H;
    (split; [simpl; discriminate|]);
    intros f; destruct f; simpl map; simpl In;
    repeat match goal with
           | H : _ <-> (exists s, inl _ = inl s) |- _ =>
               let T := fresh in
               assert (T := proj2 H (ex_intro _ _ eq_refl)); clear H
           | H : ?b = true <-> (exists s, inr _ = inl s) |- _ =>
               let T := fresh in
               assert (T : b = false)
                 by (destruct b; [destruct (proj1 H eq_refl); discriminate | reflexivity]);
               clear H
           end;
    split; intros; try congruence; try tauto;
    repeat match goal with H : _ \/ _ |- _ => destruct H end;
    try discriminate; try contradiction; auto.
Qed.

Lemma validate_accepts (c : Candidate) :
  violates validate_email c = false ->
  exists payload, validate validate_email c = inl payload.
Proof.
  unfold violates. rewrite negb_false_iff, !andb_true_iff.
  intros [[Hn He] Hm].
  apply check_name_ok in Hn. apply check_email_ok in He.
  apply check_message_ok in Hm.
  destruct Hn as (n & Hn), He as (e & He), Hm as (m & Hm).
  unfold validate. rewrite Hn, He, Hm. eexists; reflexivity.
Qed.

Lemma validate_rejects (c : Candidate) :
  violates validate_email c = true ->
  exists detail, validate validate_email c = inr detail.
Proof.
  unfold violates. rewrite negb_true_iff. intros H.
  destruct (validate validate_email c) as [payload|detail] eqn:E;
    [|eexists; reflexivity].
  exfalso. unfold validate in E.
  pose proof (check_name_ok c) as Hn.
  pose proof (check_email_ok c) as He.
  pose proof (check_message_ok c) as Hm.
  destruct (check_length 2 100 (c_name c)) as [n|kn];
    destruct (check_email validate_email (c_email c)) as [e|ke];
    destruct (check_length 10 2000 (c_message c)) as [m|km];
    try discriminate.
  rewrite (proj2 Hn (ex_intro _ _ eq_refl)),
          (proj2 He (ex_intro _ _ eq_refl)),
          (proj2 Hm (ex_intro _ _ eq_refl)) in H.
  discriminate.
Qed.

(** No request changes either catalog. *)
Lemma serve_keeps_catalogs (w : world) (req : request) (st : state) :
  g_PROJECTS (snd (serve validate_email w req st)) = g_PROJECTS st /\
  g_EXPERIENCE (snd (serve validate_email w req st)) = g_EXPERIENCE st.
Proof.
  destruct req as [| | | |body|]; simpl; try (split; reflexivity).
  - destruct (validate validate_email body) as [payload|detail];
      [|split; reflexivity].
    unfold respond.
    destruct (submit_contact_returns w payload st) as (id & st' & E & HP & HE).
    rewrite E. simpl. split; assumption.
  - unfold respond.
    destruct (test_database_returns w st) as (r & E).
    rewrite E. split; reflexivity.
Qed.

Lemma run_keeps_catalogs (trace : list (world * request)) (st : state) :
  g_PROJECTS (run validate_email trace st) = g_PROJECTS st /\
  g_EXPERIENCE (run validate_email trace st) = g_EXPERIENCE st.
Proof.
  revert st. induction trace as [|[w req] rest IH]; intros st; simpl.
  - split; reflexivity.
  - destruct (IH (snd (serve validate_email w req st))) as [HP HE].
    destruct (serve_keeps_catalogs w req st) as [HP' HE'].
    split; congruence.
Qed.

End ServiceFacts.

Lemma call_times_gets (A : Type) (f : state -> A) (n : nat) (st : state) :
  call_times (gets f) n st = (repeat (Return (f st)) n, st).
Proof.
  induction n as [|n IH]; [reflexivity|].
  cbn [call_times]. unfold gets at 1. rewrite IH. reflexivity.
Qed.

(* ================================================================== *)
(** * Contact intake *)
(* ================================================================== *)

(** Claim C1: for every body whose name has between 2 and 100 characters,
    whose email passes the syntax check and whose message has between 10 and
    2000 characters, [POST /api/contact] answers with status "ok", whatever
    the surroundings are: the [database] module may be missing, may fail
    while it loads, or [create_document] may raise. The handler itself
    returns; no exception leaves it. *)
Theorem contact_ok_whatever_the_store :
  forall (validate_email : str -> option str) (w : world) (st : state)
         (n e e' m : str),
    2 <= len n <= 100 ->
    validate_email e = Some e' ->
    10 <= len m <= 2000 ->
    exists id st',
      serve validate_email w
        (POST_contact {| c_name := Some n; c_email := Some e; c_message := Some m |}) st
      = (OK_contact {| status := lit "ok"; stored_id := id |}, st') /\
      submit_contact w (ContactMessage.Make n e' m) st
      = (Return {| status := lit "ok"; stored_id := id |}, st').
Proof.
  intros validate_email w st n e e' m Hn He Hm.
  destruct (submit_contact_returns w (ContactMessage.Make n e' m) st)
    as (id & st' & E & _).
  exists id, st'. split; [|exact E].
  unfold serve, validate. cbn [c_name c_email c_message].
  rewrite (@check_length_ok 2 100 n) by (apply in_range_spec; exact Hn).
  rewrite (@check_length_ok 10 2000 m) by (apply in_range_spec; exact Hm).
  unfold check_email. rewrite He.
  unfold respond. rewrite E. reflexivity.
Qed.

(** Claim C2: a body that violates a field constraint is answered with a
    validation error whose detail names every failing field and no other;
    no identifier is produced and the process state is untouched. Whatever
    the body, the answer is either that validation error or a 200 with
    status "ok": nothing else reaches the caller. *)
Theorem invalid_contact_rejected :
  forall (validate_email : str -> option str) (w : world) (c : Candidate)
         (st : state),
    violates validate_email c = true ->
    exists detail,
      serve validate_email w (POST_contact c) st = (Unprocessable detail, st) /\
      detail <> [] /\
      (forall f, In f (map fst detail) <-> field_ok validate_email c f = false) /\
      (forall c' st',
          (exists detail',
              serve validate_email w (POST_contact c') st'
              = (Unprocessable detail', st') /\
              violates validate_email c' = true) \/
          (exists id st'',
              serve validate_email w (POST_contact c') st'
              = (OK_contact {| status := lit "ok"; stored_id := id |}, st'') /\
              violates validate_email c' = false)).
Proof.
  intros validate_email w c st Hv.
  destruct (validate_rejects validate_email c Hv) as (detail & E).
  exists detail.
  destruct (validate_detail validate_email c E) as [Hne Hin].
  split; [unfold serve; rewrite E; reflexivity|].
  split; [exact Hne|]. split; [exact Hin|].
  intros c' st'.
  destruct (violates validate_email c') eqn:Hv'.
  - left. destruct (validate_rejects validate_email c' Hv') as (detail' & E').
    exists detail'. split; [|reflexivity].
    unfold serve. rewrite E'. reflexivity.
  - right. destruct (validate_accepts validate_email c' Hv') as (payload & E').
    destruct (submit_contact_returns w payload st') as (id & st'' & Es & _).
    exists id, st''. split; [|reflexivity].
    unfold serve. rewrite E'. unfold respond. rewrite Es. reflexivity.
Qed.

(** Claim C4: for a valid submission the [stored_id] of the answer is the
    value [create_document("message", payload)] returned when the import and
    the call both succeed, and [None] when either of them raises; with no
    store the answer is exactly [{"status": "ok", "stored_id": None}]. *)
Theorem stored_id_follows_the_store :
  forall (validate_email : str -> option str) (w : world) (st : state)
         (n e e' m : str),
    2 <= len n <= 100 ->
    validate_email e = Some e' ->
    10 <= len m <= 2000 ->
    exists r st',
      serve validate_email w
        (POST_contact {| c_name := Some n; c_email := Some e; c_message := Some m |}) st
      = (OK_contact r, st') /\
      status r = lit "ok" /\
      stored_id r =
        match import_create_document w with
        | Return create_document =>
            match create_document (lit "message") (ContactMessage.Make n e' m) with
            | Return v => v
            | Raise _ => PyNone
            end
        | Raise _ => PyNone
        end /\
      (forall x, import_create_document w = Raise x ->
                 r = {| status := lit "ok"; stored_id := PyNone |}).
Proof.
  intros validate_email w st n e e' m Hn He Hm.
  unfold serve, validate. cbn [c_name c_email c_message].
  rewrite (@check_length_ok 2 100 n) by (apply in_range_spec; exact Hn).
  rewrite (@check_length_ok 10 2000 m) by (apply in_range_spec; exact Hm).
  unfold check_email. rewrite He.
  unfold respond, submit_contact, bind, try_except, lift, call_create_document, ret.
  destruct (import_create_document w) as [create_document|x].
  - destruct (create_document (lit "message") (ContactMessage.Make n e' m)) as [v|x];
      do 2 eexists; (split; [reflexivity|]); (split; [reflexivity|]);
      (split; [reflexivity|]); intros y Hy; discriminate Hy.
  - do 2 eexists. split; [reflexivity|]. split; [reflexivity|].
    split; [reflexivity|]. intros y _. reflexivity.
Qed.

(* ================================================================== *)
(** * Catalogs *)
(* ================================================================== *)

(** Claim C5: after any sequence of requests, any number of successive calls
    of [get_projects], and of [get_experience], all return, each with the
    whole list in declaration order, so every result equals every other, and
    the process state is the same after the calls as before. *)
Theorem catalog_reads_idempotent :
  forall (validate_email : str -> option str) (trace : list (world * request))
         (n : nat),
    call_times get_projects n (run validate_email trace fresh)
    = (repeat (Return PROJECTS) n, run validate_email trace fresh) /\
    call_times get_experience n (run validate_email trace fresh)
    = (repeat (Return EXPERIENCE) n, run validate_email trace fresh).
Proof.
  intros validate_email trace n.
  destruct (run_keeps_catalogs validate_email trace fresh) as [HP HE].
  unfold get_projects, get_experience. rewrite !call_times_gets, HP, HE.
  split; reflexivity.
Qed.

(** Claim C6: on a fresh instance [GET /api/projects] returns exactly three
    entries; the first is titled "Scalable Task Queue with Distributed
    Workers" and its stack contains "FastAPI". *)
Theorem fresh_projects_listing :
  forall (validate_email : str -> option str) (w : world),
    exists first rest,
      serve validate_email w GET_projects fresh
      = (OK_projects (first :: rest), fresh) /\
      List.length (first :: rest) = 3 /\
      Project.title first = lit "Scalable Task Queue with Distributed Workers" /\
      In (lit "FastAPI") (Project.stack first).
Proof.
  intros validate_email w. do 2 eexists.
  split; [reflexivity|]. split; [reflexivity|]. split; [reflexivity|].
  right. left. reflexivity.
Qed.

(** Claim C7: both catalogs are non-empty when the process starts and no
    request changes them: after any sequence of requests, in any
    surroundings, each list equals its initial value. *)
Theorem catalogs_never_change :
  forall (validate_email : str -> option str) (trace : list (world * request)),
    g_PROJECTS (run validate_email trace fresh) = PROJECTS /\
    g_EXPERIENCE (run validate_email trace fresh) = EXPERIENCE /\
    PROJECTS <> [] /\
    EXPERIENCE <> [] /\
    (forall w req st,
        g_PROJECTS (snd (serve validate_email w req st)) = g_PROJECTS st /\
        g_EXPERIENCE (snd (serve validate_email w req st)) = g_EXPERIENCE st).
Proof.
  intros validate_email trace.
  destruct (run_keeps_catalogs validate_email trace fresh) as [HP HE].
  split; [exact HP|]. split; [exact HE|].
  split; [discriminate|]. split; [discriminate|].
  intros w req st. apply serve_keeps_catalogs.
Qed.

(* ================================================================== *)
(** * Diagnostics *)
(* ================================================================== *)

(** Claim C3: [GET /test] returns in every surroundings and hands the process
    state back unchanged, and its [database] field is a descriptive string
    chosen by the probe: "module not found" when the import raises an
    [ImportError], "available but not initialized" when [db] is [None],
    "connected & working" with the first ten collection names at most when
    the listing succeeds, and "connected but error" followed by at most the
    first fifty characters of the message when the listing raises. *)
Theorem report_status_degrades :
  forall (w : world) (st : state),
    exists r,
      test_database w st = (Return r, st) /\
      match import_db w with
      | Raise e =>
          if is_ImportError e
          then database r = MODULE_NOT_FOUND
          else database r = ERROR_PREFIX ++ slice_to 50 (exc_str e)
      | Return None => database r = NOT_INITIALIZED
      | Return (Some db) =>
          match list_collection_names db with
          | Return cs =>
              database r = CONNECTED_AND_WORKING /\
              collections r = firstn 10 cs /\
              List.length (collections r) <= 10
          | Raise e =>
              exists msg,
                database r = CONNECTED_BUT_ERROR ++ msg /\
                msg = firstn 50 (exc_str e) /\
                len msg <= 50
          end
      end.
Proof.
  intros w st. probe w.
  - eexists. split; [reflexivity|]. split; [reflexivity|].
    split; [reflexivity|]. apply slice_to_length.
  - eexists. split; [reflexivity|]. eexists. split; [reflexivity|].
    split; [reflexivity|]. apply firstn_le_length.
  - eexists. split; reflexivity.
  - eexists. split; reflexivity.
  - eexists. split; reflexivity.
Qed.

(** Claim C8, amended: in every surroundings the snapshot's [database_url]
    and [database_name] are one of the two flags "Set" and "Not Set", chosen
    by the environment alone: a flag is "Set" exactly when its variable is
    present with a non-empty value. Whatever the probe assigned to the two
    fields is overwritten, so two surroundings with the same environment
    report the same flags. *)
Theorem env_flags_overwrite_probe :
  forall (w : world) (st : state),
    exists r,
      test_database w st = (Return r, st) /\
      database_url r =
        Some (if truthy (getenv w (lit "DATABASE_URL")) then SET else NOT_SET) /\
      database_name r =
        Some (if truthy (getenv w (lit "DATABASE_NAME")) then SET else NOT_SET) /\
      (database_url r = Some SET <->
       exists v, getenv w (lit "DATABASE_URL") = Some v /\ v <> []) /\
      (database_name r = Some SET <->
       exists v, getenv w (lit "DATABASE_NAME") = Some v /\ v <> []) /\
      (forall w' r',
          getenv w' = getenv w ->
          test_database w' st = (Return r', st) ->
          database_url r' = database_url r /\
          database_name r' = database_name r).
Proof.
  intros w st.
  assert (Hflags : forall w0 r0,
             test_database w0 st = (Return r0, st) ->
             database_url r0 =
               Some (if truthy (getenv w0 (lit "DATABASE_URL")) then SET else NOT_SET) /\
             database_name r0 =
               Some (if truthy (getenv w0 (lit "DATABASE_NAME")) then SET else NOT_SET)).
  { intros w0 r0. probe w0; intros H; inversion H; subst; split; reflexivity. }
  assert (Hiff : forall v : option str,
             Some (if truthy v then SET else NOT_SET) = Some SET <->
             exists s, v = Some s /\ s <> []).
  { intros v. rewrite <- truthy_spec. destruct (truthy v).
    - split; reflexivity.
    - split; discriminate. }
  destruct (test_database_returns w st) as (r & E).
  destruct (Hflags w r E) as [Hu Hn].
  exists r. split; [exact E|]. split; [exact Hu|]. split; [exact Hn|].
  split; [rewrite Hu; apply Hiff|]. split; [rewrite Hn; apply Hiff|].
  intros w' r' Henv E'. destruct (Hflags w' r' E') as [Hu' Hn'].
  rewrite Hu, Hn, Hu', Hn', Henv. split; reflexivity.
Qed.

(** Claim C9: when [from database import db] raises an exception that is not
    an [ImportError], [GET /test] still returns, and its [database] field is
    "❌ Error: " followed by the first fifty characters of the message at
    most; this is not the "module not found" report. *)
Theorem other_import_failure_reported :
  forall (w : world) (st : state) (e : exc),
    import_db w = Raise e ->
    is_ImportError e = false ->
    exists r msg rest,
      test_database w st = (Return r, st) /\
      database r = CROSS_MARK :: lit " Error: " ++ msg /\
      msg = slice_to 50 (exc_str e) /\
      exc_str e = msg ++ rest /\
      len msg <= 50 /\
      database r <> MODULE_NOT_FOUND.
Proof.
  intros w st e Hi He.
  exists (Build_Response
            (CHECK_MARK :: lit " Running")
            (ERROR_PREFIX ++ slice_to 50 (exc_str e))
            (Some (if truthy (getenv w (lit "DATABASE_URL")) then SET else NOT_SET))
            (Some (if truthy (getenv w (lit "DATABASE_NAME")) then SET else NOT_SET))
            (lit "Not Connected") []).
  exists (slice_to 50 (exc_str e)), (skipn 50 (exc_str e)).
  split.
  { unfold test_database, test_database_body, bind, try_except, lift.
    rewrite Hi, He. reflexivity. }
  split; [reflexivity|]. split; [reflexivity|].
  split; [symmetry; apply firstn_skipn|].
  split; [apply slice_to_length|].
  cbn [database]. intros H. vm_compute in H. discriminate H.
Qed.

(** Claim C10: when [db] is not [None] and [db.list_collection_names()]
    raises, the snapshot keeps [connection_status] "Connected" and an empty
    [collections]; the error shows in [database] only. A store whose listing
    succeeds reports the same [connection_status]. *)
Theorem listing_failure_stays_connected :
  forall (w : world) (st : state) (db : Database) (e : exc),
    import_db w = Return (Some db) ->
    list_collection_names db = Raise e ->
    exists r,
      test_database w st = (Return r, st) /\
      connection_status r = lit "Connected" /\
      collections r = [] /\
      database r = CONNECTED_BUT_ERROR ++ slice_to 50 (exc_str e) /\
      (forall w2 db2 cs,
          import_db w2 = Return (Some db2) ->
          list_collection_names db2 = Return cs ->
          exists r2,
            test_database w2 st = (Return r2, st) /\
            database r2 = CONNECTED_AND_WORKING /\
            connection_status r2 = connection_status r).
Proof.
  intros w st db e Hi Hl.
  eexists. split.
  { unfold test_database, test_database_body, bind, try_except, lift.
    rewrite Hi, Hl. reflexivity. }
  split; [reflexivity|]. split; [reflexivity|]. split; [reflexivity|].
  intros w2 db2 cs Hi2 Hl2. eexists. split.
  { unfold test_database, test_database_body, bind, try_except, lift.
    rewrite Hi2, Hl2. reflexivity. }
  split; reflexivity.
Qed.

(* ================================================================== *)
(** * Instances *)
(* ================================================================== *)

(** The contact form of the end-to-end example, while every call to the
    store fails. *)
Lemma contact_ok_whatever_the_store_witness :
  2 <= len (lit "Jo") <= 100 /\
  has_at (lit "jo@x.com") = Some (lit "jo@x.com") /\
  10 <= len (lit "Hello there, this is long enough.") <= 2000 /\
  exists id st',
    serve has_at unreachable_store (POST_contact jo) fresh
    = (OK_contact {| status := lit "ok"; stored_id := id |}, st') /\
    submit_contact unreachable_store
      (ContactMessage.Make (lit "Jo") (lit "jo@x.com")
                           (lit "Hello there, this is long enough.")) fresh
    = (Return {| status := lit "ok"; stored_id := id |}, st').
Proof.
  assert (Hn : 2 <= len (lit "Jo") <= 100) by (vm_compute; lia).
  assert (He : has_at (lit "jo@x.com") = Some (lit "jo@x.com")) by reflexivity.
  assert (Hm : 10 <= len (lit "Hello there, this is long enough.") <= 2000)
    by (vm_compute; lia).
  split; [exact Hn|]. split; [exact He|]. split; [exact Hm|].
  exact (@contact_ok_whatever_the_store has_at unreachable_store fresh _ _ _ _ Hn He Hm).
Defined.

(** The invalid body of the spec's example: all three fields fail. *)
Lemma invalid_contact_rejected_witness :
  violates has_at bad_candidate = true /\
  exists detail,
    serve has_at no_store (POST_contact bad_candidate) fresh
    = (Unprocessable detail, fresh) /\
    map fst detail = [f_name; f_email; f_message].
Proof.
  assert (Hv : violates has_at bad_candidate = true) by reflexivity.
  split; [exact Hv|].
  destruct (@invalid_contact_rejected has_at no_store bad_candidate fresh Hv)
    as (detail & E & _).
  exists detail. split; [exact E|].
  vm_compute in E. injection E as E. subst detail. reflexivity.
Defined.

(** The end-to-end example: no store is configured. *)
Lemma stored_id_follows_the_store_witness :
  2 <= len (lit "Jo") <= 100 /\
  has_at (lit "jo@x.com") = Some (lit "jo@x.com") /\
  10 <= len (lit "Hello there, this is long enough.") <= 2000 /\
  fst (serve has_at no_store (POST_contact jo) fresh)
  = OK_contact {| status := lit "ok"; stored_id := PyNone |}.
Proof.
  assert (Hn : 2 <= len (lit "Jo") <= 100) by (vm_compute; lia).
  assert (He : has_at (lit "jo@x.com") = Some (lit "jo@x.com")) by reflexivity.
  assert (Hm : 10 <= len (lit "Hello there, this is long enough.") <= 2000)
    by (vm_compute; lia).
  split; [exact Hn|]. split; [exact He|]. split; [exact Hm|].
  destruct (@stored_id_follows_the_store has_at no_store fresh _ _ _ _ Hn He Hm)
    as (r & st' & E & _ & _ & Hnone).
  change (POST_contact jo)
    with (POST_contact {| c_name := Some (lit "Jo");
                          c_email := Some (lit "jo@x.com");
                          c_message := Some (lit "Hello there, this is long enough.") |}).
  rewrite E. cbn [fst]. rewrite (Hnone ModuleNotFoundError eq_refl). reflexivity.
Defined.

(** The [database] module fails while it loads with a long message. *)
Lemma other_import_failure_reported_witness :
  import_db broken_module = Raise ServerSelectionTimeoutError /\
  is_ImportError ServerSelectionTimeoutError = false /\
  exists r msg rest,
    test_database broken_module fresh = (Return r, fresh) /\
    database r = CROSS_MARK :: lit " Error: " ++ msg /\
    msg = slice_to 50 (exc_str ServerSelectionTimeoutError) /\
    exc_str ServerSelectionTimeoutError = msg ++ rest /\
    len msg <= 50 /\
    database r <> MODULE_NOT_FOUND.
Proof.
  split; [reflexivity|]. split; [reflexivity|].
  exact (@other_import_failure_reported broken_module fresh
           ServerSelectionTimeoutError eq_refl eq_refl).
Defined.

(** A store whose listing fails. *)
Lemma listing_failure_stays_connected_witness :
  import_db unreachable_store = Return (Some unreachable_db) /\
  list_collection_names unreachable_db = Raise ServerSelectionTimeoutError /\
  exists r,
    test_database unreachable_store fresh = (Return r, fresh) /\
    connection_status r = lit "Connected" /\
    collections r = [].
Proof.
  split; [reflexivity|]. split; [reflexivity|].
  destruct (@listing_failure_stays_connected unreachable_store fresh
              unreachable_db ServerSelectionTimeoutError eq_refl eq_refl)
    as (r & E & Hc & Hl & _).
  exists r. split; [exact E|]. split; [exact Hc | exact Hl].
Defined.

(** Claim C8 as first stated fails: [DATABASE_URL] is present in the
    environment, with an empty value, and the snapshot says "Not Set". *)
Lemma empty_variable_reported_not_set :
  present (getenv empty_url (lit "DATABASE_URL")) = true /\
  (exists r,
      test_database empty_url fresh = (Return r, fresh) /\
      database_url r = Some NOT_SET) /\
  ~ flags_follow_presence empty_url fresh.
Proof.
  split; [reflexivity|]. split.
  - eexists. split; reflexivity.
  - intros (r & E & Hu & _).
    vm_compute in E. injection E as E. subst r.
    vm_compute in Hu. discriminate Hu.
Qed.

(* ================================================================== *)
(** * Further facts on the handlers *)
(* ================================================================== *)

(** The state after the contact handler: one more recorded call when the
    import succeeded, whether or not the call then raised, and the same state
    otherwise. *)
Lemma submit_contact_log (w : world) (payload : ContactMessage.t) (st : state) :
  snd (submit_contact w payload st) =
  match import_create_document w with
  | Return _ =>
      State (g_PROJECTS st) (g_EXPERIENCE st)
            (create_document_calls st ++ [(lit "message", payload)])
  | Raise _ => st
  end.
Proof.
  unfold submit_contact, bind, try_except, lift, call_create_document, ret.
  destruct (import_create_document w) as [create_document|e]; [|reflexivity].
  destruct (create_document (lit "message") payload); reflexivity.
Qed.

Lemma check_length_inl (lo hi : nat) (v : option str) (s : str) :
  check_length lo hi v = inl s -> v = Some s /\ lo <= len s <= hi.
Proof.
  unfold check_length. destruct v as [s0|]; [|discriminate].
  destruct (Nat.ltb_spec (len s0) lo) as [Hlo|Hlo]; [discriminate|].
  destruct (Nat.ltb_spec hi (len s0)) as [Hhi|Hhi]; [discriminate|].
  intros E. inversion E; subst. split; [reflexivity | lia].
Qed.

Lemma validate_inl (validate_email : str -> option str) (c : Candidate)
    (payload : ContactMessage.t) :
  validate validate_email c = inl payload ->
  valid_call validate_email (lit "message", payload).
Proof.
  unfold validate, valid_call.
  destruct (check_length 2 100 (c_name c)) as [n|kn] eqn:En;
    destruct (check_email validate_email (c_email c)) as [e|ke] eqn:Ee;
    destruct (check_length 10 2000 (c_message c)) as [m|km] eqn:Em;
    try discriminate.
  intros H. inversion H; subst; clear H. cbn.
  apply check_length_inl in En, Em.
  split; [reflexivity|]. split; [tauto|]. split; [tauto|].
  unfold check_email in Ee. destruct (c_email c) as [a|]; [|discriminate].
  exists a. destruct (validate_email a); [|discriminate]. congruence.
Qed.

Lemma serve_quiet (validate_email : str -> option str) (w : world)
    (req : request) (st : state) :
  forwards validate_email w req = false ->
  snd (serve validate_email w req st) = st.
Proof.
  destruct req as [| | | |body|]; simpl; try reflexivity.
  - destruct (validate validate_email body) as [payload|detail]; [|reflexivity].
    intros H. unfold respond.
    pose proof (submit_contact_log w payload st) as L.
    destruct (submit_contact w payload st) as [[r|e] st']; simpl in *;
      destruct (import_create_document w); try discriminate; exact L.
  - intros _. unfold respond.
    destruct (test_database_returns w st) as (r & E). rewrite E. reflexivity.
Qed.

Lemma serve_loud (validate_email : str -> option str) (w : world)
    (req : request) (st : state) :
  forwards validate_email w req = true ->
  exists body payload,
    req = POST_contact body /\
    validate validate_email body = inl payload /\
    snd (serve validate_email w req st) =
      State (g_PROJECTS st) (g_EXPERIENCE st)
            (create_document_calls st ++ [(lit "message", payload)]).
Proof.
  destruct req as [| | | |body|]; simpl; try discriminate.
  destruct (validate validate_email body) as [payload|detail] eqn:E;
    [|discriminate].
  intros H. exists body, payload. split; [reflexivity|]. split; [exact E|].
  unfold respond.
  pose proof (submit_contact_log w payload st) as L.
  destruct (submit_contact w payload st) as [[r|e] st']; simpl in *;
    destruct (import_create_document w); try discriminate; exact L.
Qed.

(** The calls recorded along a sequence of requests: appended to those
    already there, one per forwarding request, each of them valid. *)
Lemma run_log (validate_email : str -> option str)
    (trace : list (world * request)) (st : state) :
  exists added,
    create_document_calls (run validate_email trace st)
    = create_document_calls st ++ added /\
    List.length added = forwarded validate_email trace /\
    Forall (valid_call validate_email) added.
Proof.
  revert st. induction trace as [|[w req] rest IH]; intros st.
  - exists []. split; [symmetry; apply app_nil_r|]. split; [reflexivity|constructor].
  - cbn [run]. unfold forwarded. cbn [filter fst snd].
    destruct (forwards validate_email w req) eqn:F.
    + destruct (serve_loud validate_email w req st F)
        as (body & payload & _ & Ev & Es).
      rewrite Es. 
      destruct (IH (State (g_PROJECTS st) (g_EXPERIENCE st)
                          (create_document_calls st ++ [(lit "message", payload)])))
        as (added & Ha & Hl & Hv).
      exists ((lit "message", payload) :: added).
      split; [rewrite Ha; cbn [create_document_calls]; rewrite <- app_assoc; reflexivity|].
      split; [cbn [List.length]; f_equal; exact Hl|].
      constructor; [exact (validate_inl _ _ Ev) | exact Hv].
    + rewrite (serve_quiet validate_email w req st F).
      destruct (IH st) as (added & Ha & Hl & Hv).
      exists added. split; [exact Ha|]. split; [exact Hl | exact Hv].
Qed.

(** The snapshot of the diagnostic handler, branch by branch. *)
Lemma snapshot_cases (w : world) (st : state) :
  exists r,
    test_database w st = (Return r, st) /\
    database_url r <> None /\
    database_url r <> Some (CHECK_MARK :: lit " Configured") /\
    database_name r <> None /\
    match import_db w with
    | Raise e =>
        connection_status r = lit "Not Connected" /\
        collections r = [] /\
        database r = (if is_ImportError e then MODULE_NOT_FOUND
                      else ERROR_PREFIX ++ slice_to 50 (exc_str e))
    | Return None =>
        connection_status r = lit "Not Connected" /\
        collections r = [] /\
        database r = NOT_INITIALIZED
    | Return (Some db) =>
        connection_status r = lit "Connected" /\
        match list_collection_names db with
        | Return cs =>
            collections r = slice_to 10 cs /\
            database r = CONNECTED_AND_WORKING
        | Raise e =>
            collections r = [] /\
            database r = CONNECTED_BUT_ERROR ++ slice_to 50 (exc_str e)
        end
    end.
Proof.
  assert (Hflag : forall b : bool,
             Some (if b then SET else NOT_SET)
             <> Some (CHECK_MARK :: lit " Configured")).
  { intros [|] H; vm_compute in H; discriminate H. }
  probe w; eexists; (split; [reflexivity|]); cbn [database_url database_name];
    (split; [discriminate|]); (split; [apply Hflag|]); (split; [discriminate|]);
    repeat split; reflexivity.
Qed.

(* ================================================================== *)
(** * What reaches the store *)
(* ================================================================== *)

(** X1: a request that is not a valid contact body posted while
    [create_document] can be imported leaves the whole process state as it
    was: the banners, the catalogs, the diagnostic route, a rejected body and
    a body posted without a store record nothing. *)
Theorem quiet_requests_keep_state :
  forall (validate_email : str -> option str) (w : world) (req : request)
         (st : state),
    forwards validate_email w req = false ->
    snd (serve validate_email w req st) = st.
Proof.
  intros validate_email w req st Hquiet.
  destruct req as [| | | |body|]; try reflexivity.
  - unfold forwards in Hquiet. unfold serve.
    destruct (validate validate_email body) as [payload|detail]; [|reflexivity].
    unfold respond.
    pose proof (submit_contact_log w payload st) as L.
    destruct (submit_contact w payload st) as [[r|e] st'];
      destruct (import_create_document w); try discriminate Hquiet; exact L.
  - unfold serve, respond.
    destruct (test_database_returns w st) as (r & E). rewrite E. reflexivity.
Qed.

(** X2: a valid contact body posted while [create_document] can be imported
    records exactly one call, [create_document("message", payload)] on the
    validated record, after the calls already made; this holds as well when
    the call raises, and nothing else in the state changes. *)
Theorem forwarding_request_calls_once :
  forall (validate_email : str -> option str) (w : world) (req : request)
         (st : state),
    forwards validate_email w req = true ->
    exists body payload,
      req = POST_contact body /\
      validate validate_email body = inl payload /\
      snd (serve validate_email w req st) =
        State (g_PROJECTS st) (g_EXPERIENCE st)
              (create_document_calls st ++ [(lit "message", payload)]).
Proof.
  intros validate_email w req st Hloud.
  destruct req as [| | | |body|]; try discriminate Hloud.
  unfold forwards in Hloud. unfold serve.
  destruct (validate validate_email body) as [payload|detail] eqn:E;
    [|discriminate Hloud].
  exists body, payload. split; [reflexivity|]. split; [exact E|].
  unfold respond.
  pose proof (submit_contact_log w payload st) as L.
  destruct (submit_contact w payload st) as [[r|e] st'];
    destruct (import_create_document w); try discriminate Hloud; exact L.
Qed.

(** X3: along any sequence of requests the record of store calls only grows
    at its end, by one call for each forwarding request of the sequence and
    by nothing else: no call is repeated and none is dropped. *)
Theorem store_calls_counted :
  forall (validate_email : str -> option str) (trace : list (world * request))
         (st : state),
    exists added,
      create_document_calls (run validate_email trace st)
      = create_document_calls st ++ added /\
      List.length added = forwarded validate_email trace /\
      List.length added <= List.length trace.
Proof.
  intros validate_email trace st.
  destruct (run_log validate_email trace st) as (added & Ha & Hl & _).
  exists added. split; [exact Ha|]. split; [exact Hl|].
  rewrite Hl. unfold forwarded. apply filter_length_le.
Qed.

(** X4: whatever the traffic since the process started, every call made to
    the store names the collection "message" and carries a record that meets
    the constraints of [ContactMessage]: a name of 2 to 100 characters, a
    message of 10 to 2000 characters and an address accepted by the syntax
    check. *)
Theorem store_receives_valid_messages :
  forall (validate_email : str -> option str) (trace : list (world * request)),
    Forall (valid_call validate_email)
           (create_document_calls (run validate_email trace fresh)).
Proof.
  intros validate_email trace.
  destruct (run_log validate_email trace fresh) as (added & Ha & _ & Hv).
  rewrite Ha. exact Hv.
Qed.


(* ================================================================== *)
(** * What the snapshot tells *)
(* ================================================================== *)

(** X6: the placeholders written while the snapshot is built never reach the
    caller: [database] is neither the initial "Not Available" nor the
    intermediate "Available", and [database_url] and [database_name] are
    never [None], nor is [database_url] ever "Configured". *)
Theorem placeholders_never_returned :
  forall (w : world) (st : state),
    exists r,
      test_database w st = (Return r, st) /\
      database r <> CROSS_MARK :: lit " Not Available" /\
      database r <> CHECK_MARK :: lit " Available" /\
      database_url r <> None /\
      database_url r <> Some (CHECK_MARK :: lit " Configured") /\
      database_name r <> None.
Proof.
  intros w st.
  destruct (snapshot_cases w st) as (r & E & Hu & Hc & Hn & H).
  exists r. split; [exact E|].
  assert (Hd : database r <> CROSS_MARK :: lit " Not Available" /\
               database r <> CHECK_MARK :: lit " Available").
  { destruct (import_db w) as [[db|]|e].
    - destruct H as (_ & H).
      destruct (list_collection_names db) as [cs|e]; destruct H as (_ & ->);
        split; intros D; vm_compute in D; discriminate D.
    - destruct H as (_ & _ & ->). split; intros D; vm_compute in D; discriminate D.
    - destruct H as (_ & _ & ->).
      destruct (is_ImportError e); split; intros D; vm_compute in D; discriminate D. }
  tauto.
Qed.

(** X7: "Connected & Working" is reported exactly when [db] is not [None]
    and the listing of its collections returned; no exception message can
    make another branch produce that string. *)
Theorem working_report_is_sound :
  forall (w : world) (st : state),
    exists r,
      test_database w st = (Return r, st) /\
      (database r = CONNECTED_AND_WORKING <->
       exists db cs,
         import_db w = Return (Some db) /\
         list_collection_names db = Return cs).
Proof.
  intros w st.
  destruct (snapshot_cases w st) as (r & E & _ & _ & _ & H).
  exists r. split; [exact E|].
  destruct (import_db w) as [[db|]|e].
  - destruct H as (_ & H).
    destruct (list_collection_names db) as [cs|e] eqn:L; destruct H as (_ & ->).
    + split; [intros _; exists db, cs; split; [reflexivity | exact L] | reflexivity].
    + split; [intros D; vm_compute in D; discriminate D|].
      intros (db' & cs & Hi & Hl). inversion Hi; subst. congruence.
  - destruct H as (_ & _ & ->).
    split; [intros D; vm_compute in D; discriminate D|].
    intros (db' & cs & Hi & _). discriminate Hi.
  - destruct H as (_ & _ & ->).
    split; [|intros (db' & cs & Hi & _); discriminate Hi].
    destruct (is_ImportError e); intros D; vm_compute in D; discriminate D.
Qed.


(** X9: the [database] field is never empty and never longer than 75
    characters, however long the message of the exception it quotes. *)
Theorem database_field_bounded :
  forall (w : world) (st : state),
    exists r,
      test_database w st = (Return r, st) /\
      1 <= len (database r) <= 75.
Proof.
  intros w st.
  destruct (snapshot_cases w st) as (r & E & _ & _ & _ & H).
  exists r. split; [exact E|].
  assert (Hcut : forall (prefix s : str),
             len (prefix ++ slice_to 50 s) <= len prefix + 50 /\
             len prefix <= len (prefix ++ slice_to 50 s)).
  { intros prefix s. unfold len. rewrite length_app.
    pose proof (slice_to_length 50 s). lia. }
  destruct (import_db w) as [[db|]|e].
  - destruct H as (_ & H).
    destruct (list_collection_names db) as [cs|e]; destruct H as (_ & ->).
    + vm_compute. lia.
    + pose proof (Hcut CONNECTED_BUT_ERROR (exc_str e)) as [Hhi Hlo].
      change (len CONNECTED_BUT_ERROR) with 25 in *. lia.
  - destruct H as (_ & _ & ->). vm_compute. lia.
  - destruct H as (_ & _ & ->). destruct (is_ImportError e).
    + vm_compute. lia.
    + pose proof (Hcut ERROR_PREFIX (exc_str e)) as [Hhi Hlo].
      change (len ERROR_PREFIX) with 9 in *. lia.
Qed.

(** X10: [collections] holds ten names at most, and a non-empty
    [collections] is only ever returned together with "Connected & Working"
    and "Connected". *)
Theorem collections_imply_working :
  forall (w : world) (st : state),
    exists r,
      test_database w st = (Return r, st) /\
      List.length (collections r) <= 10 /\
      (collections r <> [] ->
       database r = CONNECTED_AND_WORKING /\
       connection_status r = lit "Connected").
Proof.
  intros w st.
  destruct (snapshot_cases w st) as (r & E & _ & _ & _ & H).
  exists r. split; [exact E|].
  destruct (import_db w) as [[db|]|e].
  - destruct H as (Hc & H).
    destruct (list_collection_names db) as [cs|e]; destruct H as (-> & Hd).
    + split; [apply slice_to_length|]. intros _. split; assumption.
    + split; [simpl; lia|]. intros N. now elim N.
  - destruct H as (_ & -> & _). split; [simpl; lia|]. intros N. now elim N.
  - destruct H as (_ & -> & _). split; [simpl; lia|]. intros N. now elim N.
Qed.

(** X11: in both error reports the message of the exception is quoted after
    the prefix, whole when it has fifty characters or fewer (an empty message
    leaves the bare prefix) and cut to exactly its first fifty otherwise. *)
Theorem error_message_cut_at_fifty :
  forall (w : world) (st : state) (e : exc),
    (import_db w = Raise e /\ is_ImportError e = false) \/
    (exists db, import_db w = Return (Some db) /\
                list_collection_names db = Raise e) ->
    exists r prefix,
      test_database w st = (Return r, st) /\
      (prefix = ERROR_PREFIX \/ prefix = CONNECTED_BUT_ERROR) /\
      database r = prefix ++ firstn 50 (exc_str e) /\
      len (database r) = len prefix + Nat.min 50 (len (exc_str e)) /\
      (len (exc_str e) <= 50 -> database r = prefix ++ exc_str e).
Proof.
  intros w st e Hcase.
  destruct (snapshot_cases w st) as (r & E & _ & _ & _ & H).
  assert (Hcut : forall prefix : str,
             database r = prefix ++ slice_to 50 (exc_str e) ->
             database r = prefix ++ firstn 50 (exc_str e) /\
             len (database r) = len prefix + Nat.min 50 (len (exc_str e)) /\
             (len (exc_str e) <= 50 -> database r = prefix ++ exc_str e)).
  { intros prefix ->. unfold slice_to, len.
    split; [reflexivity|].
    split; [rewrite length_app, length_firstn; reflexivity|].
    intros Hle. rewrite firstn_all2 by exact Hle. reflexivity. }
  destruct Hcase as [[Hi He] | (db & Hi & Hl)]; rewrite Hi in H.
  - rewrite He in H. destruct H as (_ & _ & Hd).
    exists r, ERROR_PREFIX. split; [exact E|]. split; [left; reflexivity|].
    apply Hcut. exact Hd.
  - rewrite Hl in H. destruct H as (_ & _ & Hd).
    exists r, CONNECTED_BUT_ERROR. split; [exact E|]. split; [right; reflexivity|].
    apply Hcut. exact Hd.
Qed.

(* ================================================================== *)
(** * Further instances *)
(* ================================================================== *)

(** An invalid body posted to a store that answers: nothing is recorded. *)
Lemma quiet_requests_keep_state_witness :
  forwards has_at working_store (POST_contact bad_candidate) = false /\
  snd (serve has_at working_store (POST_contact bad_candidate) fresh) = fresh.
Proof.
  split; [reflexivity|].
  exact (@quiet_requests_keep_state has_at working_store
           (POST_contact bad_candidate) fresh eq_refl).
Defined.

(** A valid body posted to a store whose every call fails: the failed call
    is recorded once. *)
Lemma forwarding_request_calls_once_witness :
  forwards has_at unreachable_store (POST_contact jo) = true /\
  List.length
    (create_document_calls
       (snd (serve has_at unreachable_store (POST_contact jo) fresh))) = 1.
Proof.
  split; [reflexivity|].
  destruct (@forwarding_request_calls_once has_at unreachable_store
              (POST_contact jo) fresh eq_refl)
    as (body & payload & _ & _ & Es).
  rewrite Es. reflexivity.
Defined.

(** A listing that fails with a four-character message. *)
Lemma error_message_cut_at_fifty_witness :
  ((import_db failing_listing = Raise short_error /\
    is_ImportError short_error = false) \/
   (exists db, import_db failing_listing = Return (Some db) /\
               list_collection_names db = Raise short_error)) /\
  exists r prefix,
    test_database failing_listing fresh = (Return r, fresh) /\
    database r = prefix ++ lit "boom".
Proof.
  assert (Hcase :
            (import_db failing_listing = Raise short_error /\
             is_ImportError short_error = false) \/
            (exists db, import_db failing_listing = Return (Some db) /\
                        list_collection_names db = Raise short_error)).
  { right. eexists. split; reflexivity. }
  split; [exact Hcase|].
  destruct (@error_message_cut_at_fifty failing_listing fresh short_error Hcase)
    as (r & prefix & E & _ & _ & _ & Hshort).
  exists r, prefix. split; [exact E|].
  apply Hshort. vm_compute. lia.
Defined.
